(** * Shallow embedding of the Redis-stream prediction queue
    ([app/services/queue.py]), the background prediction worker and the
    result-retrieval endpoint ([app/routes/predict.py]).

    The Redis server is modelled as explicit state: a key/value store with
    per-key TTL, the stream [prediction_tasks] and the consumer group
    [prediction_workers].  Transport failures (connection lost, timeouts)
    are driven by an oracle: every Redis command consumes one boolean from
    [faults]; [true] means the command raises [ConnectionError] without
    touching the server.  Every command issued is recorded in [trace]. *)

From Stdlib Require Import ZArith Lia Sorting.Sorted.
From stdpp Require Import base gmap strings list.

Open Scope Z_scope.

(** ** Data model (app/models.py) *)

Inductive PredictionStatus := PENDING | PROCESSING | COMPLETED | FAILED.

Definition status_value (s : PredictionStatus) : string :=
  match s with
  | PENDING => "pending"
  | PROCESSING => "processing"
  | COMPLETED => "completed"
  | FAILED => "failed"
  end.

(** [PredictionStatus(value)]: the enum lookup by value; [None] is the
    [ValueError] that Python raises for any other string. *)
Definition PredictionStatus_of (v : string) : option PredictionStatus :=
  if String.eqb v "pending" then Some PENDING
  else if String.eqb v "processing" then Some PROCESSING
  else if String.eqb v "completed" then Some COMPLETED
  else if String.eqb v "failed" then Some FAILED
  else None.

(** A [Dict[str, str]] prediction result, e.g. [{"input": .., "result": ..}]. *)
Definition dict := list (string * string).

(** ** The Redis server *)

(** A Redis string value.  [RJson d] is the text [json.dumps(d)] of a
    dictionary, represented by the dictionary it encodes ([json.loads]
    inverts it); [RStr s] is any other text. *)
Inductive RedisValue := RStr (s : string) | RJson (d : dict).

(** Stream entry: its id and its field/value pairs. *)
Record StreamEntry := { entry_id : nat; entry_fields : list (string * string) }.

Record Redis := {
  kv : gmap string (RedisValue * Z);     (** value and TTL, -1 = no expiry *)
  stream : list StreamEntry;             (** [prediction_tasks], append order *)
  last_id : nat;                         (** id of the last appended entry *)
  last_delivered : nat;                  (** group cursor of [prediction_workers] *)
  pel : list nat                         (** pending entries list of the group *)
}.

(** The commands of [redis-py] that the service issues. *)
Inductive Command :=
  | CSetex (k : string) (ttl : Z) (v : RedisValue)
  | CGet (k : string)
  | CXadd
  | CXreadgroup
  | CXack (m : nat)
  | CKeys (pattern : string)
  | CTtl (k : string)
  | CExpire (k : string) (ttl : Z).

Record World := {
  redis : Redis;
  faults : list bool;                     (** transport-failure oracle *)
  trace : list (Command * bool);          (** issued commands, [true] = raised *)
  utc_now : string                        (** [datetime.utcnow().isoformat()] *)
}.

(** ** Python exceptions and the execution monad *)

Inductive exn := ConnectionError | KeyError | ValueError | PredictionError.

Inductive res (A : Type) := Ok (a : A) | Exc (e : exn).
Arguments Ok {A} a.
Arguments Exc {A} e.

Definition M (A : Type) := World -> res A * World.

Definition ret {A} (a : A) : M A := fun w => (Ok a, w).
Definition raise {A} (e : exn) : M A := fun w => (Exc e, w).
Definition bind {A B} (m : M A) (f : A -> M B) : M B :=
  fun w => match m w with
           | (Ok a, w') => f a w'
           | (Exc e, w') => (Exc e, w')
           end.
(** [try: m except Exception: h] *)
Definition try_except {A} (m : M A) (h : exn -> M A) : M A :=
  fun w => match m w with
           | (Ok a, w') => (Ok a, w')
           | (Exc e, w') => h e w'
           end.
(** A pure Python computation that may raise. *)
Definition lift {A} (r : res A) : M A := fun w => (r, w).
Definition now : M string := fun w => (Ok (utc_now w), w).

Notation "'let!' x := m 'in' k" := (bind m (fun x => k))
  (at level 200, x name, m at level 100, k at level 200).
Notation "'do!' m 'in' k" := (bind m (fun _ => k))
  (at level 200, m at level 100, k at level 200).

(** Issue one Redis command with effect [eff] on the server.  When the
    oracle says the transport fails, the command raises and the server is
    untouched. *)
Definition command {A} (c : Command) (eff : Redis -> A * Redis) : M A :=
  fun w =>
    match faults w with
    | true :: fs =>
        (Exc ConnectionError,
         {| redis := redis w; faults := fs; trace := trace w ++ [(c, true)];
            utc_now := utc_now w |})
    | fs =>
        let '(a, r') := eff (redis w) in
        (Ok a,
         {| redis := r'; faults := tail fs; trace := trace w ++ [(c, false)];
            utc_now := utc_now w |})
    end.

(** ** Redis command semantics *)

Definition with_kv (r : Redis) (m : gmap string (RedisValue * Z)) : Redis :=
  {| kv := m; stream := stream r; last_id := last_id r;
     last_delivered := last_delivered r; pel := pel r |}.

(** SETEX key ttl value *)
Definition setex (k : string) (ttl : Z) (v : RedisValue) : M unit :=
  command (CSetex k ttl v) (fun r => (tt, with_kv r (<[k := (v, ttl)]> (kv r)))).

(** GET key *)
Definition get (k : string) : M (option RedisValue) :=
  command (CGet k) (fun r => (option_map fst (kv r !! k), r)).

(** XADD stream * fields: appends with a fresh, strictly larger id. *)
Definition xadd (fields : list (string * string)) : M nat :=
  command CXadd (fun r =>
    let i := S (last_id r) in
    (i, {| kv := kv r; stream := stream r ++ [{| entry_id := i; entry_fields := fields |}];
           last_id := i; last_delivered := last_delivered r; pel := pel r |})).

(** XREADGROUP GROUP g c COUNT 1 STREAMS s '>': the first entry past the
    group cursor, which becomes delivered and pending.  (Blocking for
    [timeout] ms is not modelled: an empty read is the timeout.) *)
Definition xreadgroup_one : M (list StreamEntry) :=
  command CXreadgroup (fun r =>
    match List.filter (fun e => Nat.ltb (last_delivered r) (entry_id e)) (stream r) with
    | [] => ([], r)
    | e :: _ =>
        ([e], {| kv := kv r; stream := stream r; last_id := last_id r;
                 last_delivered := entry_id e; pel := pel r ++ [entry_id e] |})
    end).

(** XACK s g id: removes [id] from the pending entries list; an id that
    is not pending is ignored (the reply is the number removed). *)
Definition xack (m : nat) : M nat :=
  command (CXack m) (fun r =>
    (if bool_decide (m ∈ pel r) then 1%nat else 0%nat,
     {| kv := kv r; stream := stream r; last_id := last_id r;
        last_delivered := last_delivered r;
        pel := List.filter (fun x => negb (Nat.eqb x m)) (pel r) |})).

(** KEYS "prefix*" *)
Definition keys_prefix (p : string) : M (list string) :=
  command (CKeys (String.append p "*"))
    (fun r => (List.filter (fun k => String.prefix p k) (map fst (map_to_list (kv r))), r)).

(** TTL key: -2 for a missing key, -1 for a key without expiry. *)
Definition ttl (k : string) : M Z :=
  command (CTtl k) (fun r =>
    (match kv r !! k with None => -2 | Some (_, t) => t end, r)).

(** EXPIRE key ttl *)
Definition expire (k : string) (t : Z) : M bool :=
  command (CExpire k t) (fun r =>
    match kv r !! k with
    | None => (false, r)
    | Some (v, _) => (true, with_kv r (<[k := (v, t)]> (kv r)))
    end).

(** Python truthiness of a [GET] reply. *)
Definition truthy (v : option RedisValue) : bool :=
  match v with
  | None => false
  | Some (RStr s) => negb (String.eqb s "")
  | Some (RJson _) => true
  end.

(** [json.loads] of a reply under a result key.  The only writer of result
    keys is [store_prediction_result], which stores [json.dumps(result)] of
    a dict: that text, [RJson d], decodes to [d].  Plain text under a
    result key could only come from another client of the server (no code
    path writes one: see [result_keys_hold_json]); it is not decoded here
    and counts as undecodable. *)
Definition json_loads (v : RedisValue) : res dict :=
  match v with RJson d => Ok d | RStr _ => Exc ValueError end.

(** [fields["name"]] *)
Definition field (fs : list (string * string)) (k : string) : res string :=
  match List.find (fun p => String.eqb (fst p) k) fs with
  | Some (_, v) => Ok v
  | None => Exc KeyError
  end.

(** ** RedisQueueService (app/services/queue.py)

    The constructor's [xgroup_create(..., mkstream=True)] is assumed to
    have run: a service instance only exists once the group exists. *)
Module RedisQueueService.

Definition stream_name : string := "prediction_tasks".
Definition consumer_group : string := "prediction_workers".
Definition results_prefix : string := "prediction_result:".
Definition status_prefix : string := "prediction_status:".
Definition result_ttl : Z := 86400.

Definition result_key (prediction_id : string) : string :=
  String.append results_prefix prediction_id.
Definition status_key (prediction_id : string) : string :=
  String.append status_prefix prediction_id.

(** The dictionary returned by [get_next_task]. *)
Record Task := {
  message_id : nat;
  prediction_id : string;
  input_data : string;
  created_at : string
}.

(** [set_prediction_status] *)
Definition set_prediction_status (pid : string) (status : PredictionStatus) : M bool :=
  try_except
    (do! setex (status_key pid) result_ttl (RStr (status_value status)) in
     ret true)
    (fun _ => ret false).

(** [enqueue_prediction]: the boolean returned by [set_prediction_status]
    is discarded, as in the source. *)
Definition enqueue_prediction (pid : string) (input : string) : M bool :=
  try_except
    (do! set_prediction_status pid PENDING in
     let! created := now in
     let task_data := [("prediction_id", pid); ("input_data", input);
                       ("created_at", created)] in
     let! stream_id := xadd task_data in
     ret true)
    (fun _ => ret false).

(** [get_next_task] *)
Definition get_next_task : M (option Task) :=
  try_except
    (let! messages := xreadgroup_one in
     match messages with
     | msg :: _ =>
         let fs := entry_fields msg in
         let! p := lift (field fs "prediction_id") in
         let! i := lift (field fs "input_data") in
         let! c := lift (field fs "created_at") in
         ret (Some {| message_id := entry_id msg; prediction_id := p;
                      input_data := i; created_at := c |})
     | [] => ret None
     end)
    (fun _ => ret None).

(** [acknowledge_task] *)
Definition acknowledge_task (mid : nat) : M bool :=
  try_except
    (do! xack mid in ret true)
    (fun _ => ret false).

(** [store_prediction_result]: result write, then the status write whose
    boolean is discarded. *)
Definition store_prediction_result (pid : string) (result : dict) : M bool :=
  try_except
    (do! setex (result_key pid) result_ttl (RJson result) in
     do! set_prediction_status pid COMPLETED in
     ret true)
    (fun _ => ret false).

(** [get_prediction_result] *)
Definition get_prediction_result (pid : string) : M (option dict) :=
  try_except
    (let! result_json := get (result_key pid) in
     match result_json with
     | Some v =>
         if truthy result_json then
           let! d := lift (json_loads v) in ret (Some d)
         else ret None
     | None => ret None
     end)
    (fun _ => ret None).

(** [get_prediction_status] *)
Definition get_prediction_status (pid : string) : M (option PredictionStatus) :=
  try_except
    (let! status_value := get (status_key pid) in
     match status_value with
     | Some v =>
         if truthy status_value then
           match v with
           | RStr s =>
               match PredictionStatus_of s with
               | Some st => ret (Some st)
               | None => raise ValueError
               end
           | RJson _ => raise ValueError
           end
         else ret None
     | None => ret None
     end)
    (fun _ => ret None).

(** The [for key in keys] loop of [cleanup_expired_data]. *)
Fixpoint cleanup_loop (keys : list string) (cleaned : nat) : M nat :=
  match keys with
  | [] => ret cleaned
  | key :: rest =>
      let! t := ttl key in
      if Z.eqb t (-1) then
        do! expire key result_ttl in cleanup_loop rest (S cleaned)
      else cleanup_loop rest cleaned
  end.

(** [cleanup_expired_data] *)
Definition cleanup_expired_data : M nat :=
  try_except
    (let! keys := keys_prefix status_prefix in
     cleanup_loop keys 0)
    (fun _ => ret 0%nat).

End RedisQueueService.

Import RedisQueueService.

(** ** Python string helpers

    A Python [str] is represented by its UTF-8 encoding: the form in which
    the JSON request body arrives and in which redis-py (with
    [decode_responses=True]) exchanges text with the server. *)

Definition byte_values (s : string) : list Z :=
  map (fun c => Z.of_nat (Ascii.nat_of_ascii c)) (String.list_ascii_of_string s).

Definition in_range (lo hi b : Z) : bool := andb (Z.leb lo b) (Z.leb b hi).

(** Strict UTF-8 decoding, as Python's [bytes.decode("utf-8")]: the
    well-formed sequences of Unicode table 3-7 (no overlong forms, no
    surrogates, nothing past U+10FFFF); [None] on a malformed sequence. *)
Fixpoint utf8_decode (l : list Z) : option (list Z) :=
  match l with
  | [] => Some []
  | b0 :: r0 =>
      if Z.leb b0 127 then option_map (cons b0) (utf8_decode r0)
      else
        match r0 with
        | [] => None
        | b1 :: r1 =>
            if andb (in_range 194 223 b0) (in_range 128 191 b1) then
              option_map (cons ((b0 - 192) * 64 + (b1 - 128))) (utf8_decode r1)
            else
              match r1 with
              | [] => None
              | b2 :: r2 =>
                  if andb (in_range 224 239 b0)
                       (andb (in_range (if Z.eqb b0 224 then 160 else 128)
                                       (if Z.eqb b0 237 then 159 else 191) b1)
                             (in_range 128 191 b2)) then
                    option_map (cons ((b0 - 224) * 4096 + (b1 - 128) * 64 + (b2 - 128)))
                      (utf8_decode r2)
                  else
                    match r2 with
                    | [] => None
                    | b3 :: r3 =>
                        if andb (in_range 240 244 b0)
                             (andb (in_range (if Z.eqb b0 240 then 144 else 128)
                                             (if Z.eqb b0 244 then 143 else 191) b1)
                                   (andb (in_range 128 191 b2) (in_range 128 191 b3))) then
                          option_map
                            (cons ((b0 - 240) * 262144 + (b1 - 128) * 4096
                                   + (b2 - 128) * 64 + (b3 - 128)))
                            (utf8_decode r3)
                        else None
                    end
              end
        end
  end.

(** The code points of a [str].  A byte string that is not well-formed
    UTF-8 encodes no [str] (no request carries one); there the bytes are
    read one by one. *)
Definition code_points (s : string) : list Z :=
  match utf8_decode (byte_values s) with
  | Some l => l
  | None => byte_values s
  end.

(** [len(s)]: the number of code points. *)
Definition py_len (s : string) : Z := Z.of_nat (length (code_points s)).

(** [str.isspace()] on one code point (CPython's [Py_UNICODE_ISSPACE],
    also used by [str.strip()]): U+0009-U+000D, U+001C-U+001F, U+0020,
    U+0085, U+00A0, U+1680, U+2000-U+200A, U+2028, U+2029, U+202F, U+205F
    and U+3000. *)
Definition py_isspace (c : Z) : bool :=
  in_range 9 13 c || in_range 28 32 c || Z.eqb c 133 || Z.eqb c 160 ||
  Z.eqb c 5760 || in_range 8192 8202 c || Z.eqb c 8232 || Z.eqb c 8233 ||
  Z.eqb c 8239 || Z.eqb c 8287 || Z.eqb c 12288.

Fixpoint lstrip_cps (l : list Z) : list Z :=
  match l with
  | c :: rest => if py_isspace c then lstrip_cps rest else l
  | [] => []
  end.

(** [str.strip()] on the code points of a [str]. *)
Definition strip (l : list Z) : list Z := rev (lstrip_cps (rev (lstrip_cps l))).

(** [str.lower()] on a header value.  Starlette decodes header bytes as
    Latin-1, so a header [str] has one code point below 256 per byte,
    held here one per character; A-Z and U+00C0-U+00DE (but U+00D7) map
    to their lower case, 32 further on, and every other one is kept. *)
Definition lower_char (c : Ascii.ascii) : Ascii.ascii :=
  let n := Ascii.nat_of_ascii c in
  if orb (andb (Nat.leb 65 n) (Nat.leb n 90))
         (andb (andb (Nat.leb 192 n) (Nat.leb n 222)) (negb (Nat.eqb n 215)))
  then Ascii.ascii_of_nat (n + 32) else c.

Definition lower (s : string) : string :=
  String.string_of_list_ascii (map lower_char (String.list_ascii_of_string s)).

Definition digit_char (d : Z) : Ascii.ascii := Ascii.ascii_of_nat (48 + Z.to_nat d).

(** Decimal digits of [n >= 0], prepended to [acc]; [fuel] bounds the
    number of digits. *)
Fixpoint digits_aux (fuel : nat) (n : Z) (acc : string) : string :=
  match fuel with
  | O => acc
  | S f =>
      let acc' := String.String (digit_char (n mod 10)) acc in
      if Z.ltb n 10 then acc' else digits_aux f (n / 10) acc'
  end.

(** [str(n)] for a Python int. *)
Definition str_of_Z (n : Z) : string :=
  if Z.ltb n 0 then String.String (Ascii.ascii_of_nat 45) (digits_aux (S (Z.to_nat (- n))) (- n) "")
  else digits_aux (S (Z.to_nat n)) n "".

Definition is_digit_char (c : Ascii.ascii) : bool :=
  andb (Nat.leb 48 (Ascii.nat_of_ascii c)) (Nat.leb (Ascii.nat_of_ascii c) 57).

(** [str.isdigit()] on ASCII text: non-empty and all of 0-9. *)
Definition isdigit (s : string) : bool :=
  let l := String.list_ascii_of_string s in
  andb (negb (Nat.eqb (length l) 0)) (forallb is_digit_char l).

(** ** MockPredictionService (app/services/prediction.py) *)
Module PredictionService.

(** [mock_model_predict]: [n] is the value drawn by
    [random.randint(1000, 20000)]; the [time.sleep] delay and the metric
    counters are not modelled. *)
Definition mock_model_predict (input_data : string) (n : Z) : dict :=
  [("input", input_data); ("result", str_of_Z n)].

(** [async_model_predict]: [fails] is the outcome of
    [random.random() < 0.05], which raises. *)
Definition async_model_predict (input_data : string) (n : Z) (fails : bool) : res dict :=
  if fails then Exc PredictionError
  else Ok [("input", input_data); ("result", str_of_Z n)].

End PredictionService.

(** ** Prediction routes (app/routes/predict.py) *)
Module Routes.

(** The outcome of an endpoint: a response body or an [HTTPException]. *)
Inductive Response :=
  | Ok200 (prediction_id : string) (output : dict) (status : PredictionStatus)
  | HTTPError (status_code : Z) (detail : string).

(** [GET /predict/{prediction_id}]: [get_prediction_result].  The queue
    calls never raise (they catch everything), so the outer
    [except Exception] branch cannot be reached. *)
Definition get_prediction_result (pid : string) : M Response :=
  if orb (String.eqb pid "") (Nat.ltb (String.length pid) 8) then
    ret (HTTPError 400 "Invalid prediction ID format")
  else
    let! status := RedisQueueService.get_prediction_status pid in
    match status with
    | None => ret (HTTPError 404 "Prediction ID not found.")
    | Some PENDING | Some PROCESSING =>
        ret (HTTPError 400 "Prediction is still being processed.")
    | Some FAILED => ret (HTTPError 500 "Prediction processing failed.")
    | Some COMPLETED =>
        let! result := RedisQueueService.get_prediction_result pid in
        match result with
        | None => ret (HTTPError 500 "Prediction result not available.")
        | Some r => ret (Ok200 pid r COMPLETED)
        end
    end.

(** [process_async_prediction]: [predict] is the outcome of
    [await prediction_service.async_model_predict(input_data)], which
    either returns a dictionary or raises. *)
Definition process_async_prediction (predict : string -> res dict)
    (pid : string) (input : string) : M unit :=
  try_except
    (do! RedisQueueService.set_prediction_status pid PROCESSING in
     let! result := lift (predict input) in
     let! success := RedisQueueService.store_prediction_result pid result in
     if negb success then
       do! RedisQueueService.set_prediction_status pid FAILED in ret tt
     else ret tt)
    (fun _ => do! RedisQueueService.set_prediction_status pid FAILED in ret tt).

(** The outcome of [POST /predict]: a response body, a raised
    [HTTPException], or FastAPI's 422 answer to a body that fails the
    validation of [PredictionRequest]. *)
Inductive PostResponse :=
  | SyncPredictionResponse (input result : string)
  | AsyncPredictionResponse (message prediction_id : string)
  | PostError (status_code : Z) (detail : string)
  | RequestValidationError.

(** [POST /predict]: [predict].  [async_mode] is the [Async-Mode] header,
    [new_id] the value of [str(uuid.uuid4())] and [n] the number drawn by
    the synchronous mock model.  The second component lists the
    background tasks [(prediction_id, input)] that FastAPI runs after a
    successful response; a raised [HTTPException] schedules none. *)
Definition predict (input : string) (async_mode : option string) (new_id : string)
    (n : Z) : M (PostResponse * list (string * string)) :=
  if Nat.eqb (length (strip (code_points input))) 0 then
    ret (PostError 400 "Input cannot be empty", [])
  else
    let is_async := match async_mode with
                    | Some a => String.eqb (lower a) "true"
                    | None => false
                    end in
    if is_async then
      let! success := RedisQueueService.enqueue_prediction new_id input in
      if negb success then
        ret (PostError 500 "Failed to enqueue prediction task", [])
      else
        ret (AsyncPredictionResponse "Request received. Processing asynchronously." new_id,
             [(new_id, input)])
    else
      let result := PredictionService.mock_model_predict input n in
      match field result "input", field result "result" with
      | Ok i, Ok r => ret (SyncPredictionResponse i r, [])
      | _, _ => ret (PostError 500 "Internal server error occurred", [])
      end.

(** [POST /predict] as FastAPI serves it: the body is first validated
    against [PredictionRequest], whose [input] has [min_length=1] and
    [max_length=10000] (counted in code points); a body that fails is
    answered 422 and [predict] is not called. *)
Definition post_predict (input : string) (async_mode : option string) (new_id : string)
    (n : Z) : M (PostResponse * list (string * string)) :=
  if orb (Z.ltb (py_len input) 1) (Z.ltb 10000 (py_len input)) then
    ret (RequestValidationError, [])
  else predict input async_mode new_id n.

(** The HTTP status code of a [POST /predict] answer.  The route sets no
    [status_code], so a returned body, synchronous or asynchronous, is
    sent with FastAPI's default 200. *)
Definition post_status_code (r : PostResponse) : Z :=
  match r with
  | SyncPredictionResponse _ _ | AsyncPredictionResponse _ _ => 200
  | PostError c _ => c
  | RequestValidationError => 422
  end.

End Routes.

(** ** Observations on runs *)

Definition empty_redis : Redis :=
  {| kv := ∅; stream := []; last_id := 0; last_delivered := 0; pel := [] |}.

(** A fresh server; [fs] is the transport-failure oracle of the run. *)
Definition world0 (fs : list bool) : World :=
  {| redis := empty_redis; faults := fs; trace := []; utc_now := "2026-01-01T00:00:00" |}.

(** The first command of the run raises. *)
Definition transport_down (w : World) : Prop := head (faults w) = Some true.

Definition is_xack (c : Command) : bool :=
  match c with CXack _ => true | _ => false end.
Definition is_setex (c : Command) : bool :=
  match c with CSetex _ _ _ => true | _ => false end.

(** XACK commands issued in a trace. *)
Definition acks (tr : list (Command * bool)) : nat :=
  length (List.filter (fun e => is_xack (fst e)) tr).


(** Status values that a trace wrote (successfully) under the status key
    of [pid]. *)
Fixpoint status_writes (pid : string) (tr : list (Command * bool)) : list PredictionStatus :=
  match tr with
  | [] => []
  | (CSetex k _ (RStr v), false) :: rest =>
      if String.eqb k (status_key pid) then
        match PredictionStatus_of v with
        | Some st => st :: status_writes pid rest
        | None => status_writes pid rest
        end
      else status_writes pid rest
  | _ :: rest => status_writes pid rest
  end.

(** The status that [GET /predict/{id}]'s first lookup reads. *)
Definition read_status (pid : string) (w : World) : res (option PredictionStatus) :=
  fst (RedisQueueService.get_prediction_status pid w).

(** The world of [w] with the transport-failure oracle replaced by [fs]. *)
Definition with_faults (w : World) (fs : list bool) : World :=
  {| redis := redis w; faults := fs; trace := trace w; utc_now := utc_now w |}.


(** The end-to-end run of the spec's scenario: [submit], a consumer claims
    whichever entry [next()] hands out, the work has produced [r], the
    result is stored and the claimed entry acknowledged. *)
Definition submit_claim_store_ack (t p : string) (r : dict) : M (option Task) :=
  do! enqueue_prediction t p in
  let! task := get_next_task in
  match task with
  | Some tk =>
      do! store_prediction_result t r in
      do! acknowledge_task (message_id tk) in
      ret (Some tk)
  | None => ret None
  end.

(** Well-formedness of the stream and the consumer group: XADD ids are
    strictly increasing and bounded by the last id, the group cursor never
    passes the last id, and every pending entry was delivered (its id is
    at most the cursor). *)
Definition WF (r : Redis) : Prop :=
  StronglySorted lt (map entry_id (stream r)) /\
  Forall (fun e => (entry_id e <= last_id r)%nat) (stream r) /\
  (last_delivered r <= last_id r)%nat /\
  Forall (fun m => (m <= last_delivered r)%nat) (pel r).

(** A computation keeps [WF] whatever the transport does. *)
Definition preserves {A} (m : M A) : Prop :=
  forall w, WF (redis w) -> WF (redis (snd (m w))).

(** A key of the store that has no expiry ([TTL] answers -1). *)
Definition no_expiry (m : gmap string (RedisValue * Z)) (k : string) : bool :=
  match m !! k with Some (_, t) => Z.eqb t (-1) | None => false end.

(** The reply of [KEYS "prediction_status:*"]. *)
Definition status_keys (m : gmap string (RedisValue * Z)) : list string :=
  List.filter (fun k => String.prefix status_prefix k) (map fst (map_to_list m)).

(** The entry of [k] once its expiry is set to [result_ttl]. *)
Definition with_result_ttl (e : option (RedisValue * Z)) : option (RedisValue * Z) :=
  match e with Some (v, _) => Some (v, result_ttl) | None => None end.

(** U+00A0 NO-BREAK SPACE, UTF-8 encoded. *)
Definition nbsp : string :=
  String.String (Ascii.ascii_of_nat 194) (String.String (Ascii.ascii_of_nat 160) String.EmptyString).

(** Two tasks submitted on a fresh server. *)
Definition two_submitted : World :=
  snd (enqueue_prediction "task-0002" "y" (snd (enqueue_prediction "task-0001" "x" (world0 [])))).

(** A store with a status key without expiry, a status key that already
    expires and a result key without expiry. *)
Definition aged_store : World :=
  {| redis := with_kv empty_redis
       (<[status_key "task-0001" := (RStr "completed", -1)]>
        (<[status_key "task-0002" := (RStr "pending", 3600)]>
         (<[result_key "task-0001" := (RJson [("result", "1234")], -1)]> ∅)));
     faults := []; trace := []; utc_now := "2026-01-01T00:00:00" |}.


(** Every value under a [prediction_result:] key is the [json.dumps]
    text of a dict. *)
Definition results_json (m : gmap string (RedisValue * Z)) : Prop :=
  forall q v t, m !! result_key q = Some (v, t) -> exists d, v = RJson d.

(** A computation keeps [results_json] whatever the transport does. *)
Definition keeps_json {A} (m : M A) : Prop :=
  forall w, results_json (kv (redis w)) -> results_json (kv (redis (snd (m w)))).

(** ** Proof tools *)

Ltac split_faults :=
  repeat match goal with
  | |- context [match ?fs with [] => _ | _ :: _ => _ end] =>
      is_var fs; destruct fs as [|[|] ?fs]; cbn
  end.

Ltac unfold_monad :=
  unfold try_except, bind, ret, raise, lift, now, setex, get, xadd,
    xreadgroup_one, xack, keys_prefix, ttl, expire, command in *.

Ltac world_cases w :=
  destruct w as [[?m ?s ?li ?ld ?p] ?fs ?tr ?nw]; cbn.



(** ** C9 *)





(** ** C8 *)

(** C8: for a task id with no status record (never submitted, or expired),
    [get_prediction_status] returns [None], which is none of the four
    status values. *)
Theorem get_status_no_record (pid : string) (w : World) :
  kv (redis w) !! status_key pid = None ->
  read_status pid w = Ok None /\ forall st, read_status pid w <> Ok (Some st).
Proof.
  intros H. assert (E : read_status pid w = Ok None).
  { unfold read_status, get_prediction_status. unfold_monad.
    world_cases w. cbn in H.
    destruct fs as [|[|] fs]; cbn; try rewrite H; reflexivity. }
  split; [exact E | intros st; rewrite E; discriminate].
Qed.

Lemma get_status_no_record_witness :
  kv (redis (world0 [])) !! status_key "never-seen" = None /\
  read_status "never-seen" (world0 []) = Ok None /\
  forall st, read_status "never-seen" (world0 []) <> Ok (Some st).
Proof.
  split; [reflexivity|]. apply (get_status_no_record "never-seen" (world0 [])).
  reflexivity.
Defined.

(** ** C6 *)

Lemma filter_not_elem (m : nat) (l : list nat) :
  m ∉ l -> List.filter (fun x => negb (Nat.eqb x m)) l = l.
Proof.
  induction l as [|x l IH]; intros H; cbn; [reflexivity|].
  rewrite elem_of_cons in H.
  destruct (Nat.eqb_spec x m); [subst; tauto|]. cbn. rewrite IH; tauto.
Qed.

Lemma filter_removes (m : nat) (l : list nat) :
  m ∉ List.filter (fun x => negb (Nat.eqb x m)) l.
Proof.
  rewrite list_elem_of_In, List.filter_In. intros [_ H].
  rewrite Nat.eqb_refl in H. discriminate.
Qed.

(** C6: acknowledging a handle that is not pending (never delivered, or
    already acknowledged) returns [True] and leaves the server unchanged;
    and after a successful acknowledgement the handle is no longer
    pending, so a second acknowledgement is such a no-op. *)
Theorem acknowledge_task_idempotent :
  (forall (m : nat) (w : World), m ∉ pel (redis w) -> ~ transport_down w ->
     fst (acknowledge_task m w) = Ok true /\
     redis (snd (acknowledge_task m w)) = redis w) /\
  (forall (m : nat) (w : World), fst (acknowledge_task m w) = Ok true ->
     m ∉ pel (redis (snd (acknowledge_task m w)))).
Proof.
  split.
  - intros m w Hm Hup. unfold transport_down, acknowledge_task in *.
    unfold_monad. world_cases w. cbn in Hm.
    destruct fs as [|[|] fs]; cbn in Hup |- *; try congruence;
      rewrite (filter_not_elem m p Hm); split; reflexivity.
  - intros m w. unfold acknowledge_task. unfold_monad. world_cases w.
    destruct fs as [|[|] fs]; cbn; try discriminate; intros _; apply filter_removes.
Qed.

Lemma acknowledge_task_idempotent_witness :
  let w0 := snd (get_next_task (snd (enqueue_prediction "task-0001" "hello" (world0 [])))) in
  let w1 := snd (acknowledge_task 1 w0) in
  pel (redis w0) = [1%nat] /\ fst (acknowledge_task 1 w0) = Ok true /\
  pel (redis w1) = [] /\
  ((((1:nat) ∉ pel (redis w1)) /\ ~ transport_down w1) /\
   fst (acknowledge_task 1 w1) = Ok true /\
   redis (snd (acknowledge_task 1 w1)) = redis w1).
Proof.
  cbn zeta.
  set (w0 := snd (get_next_task (snd (enqueue_prediction "task-0001" "hello" (world0 []))))).
  assert (H0 : fst (acknowledge_task 1 w0) = Ok true) by (vm_compute; reflexivity).
  assert (H1 : 1%nat ∉ pel (redis (snd (acknowledge_task 1 w0)))).
  { apply (proj2 acknowledge_task_idempotent). exact H0. }
  assert (H2 : ~ transport_down (snd (acknowledge_task 1 w0))).
  { unfold transport_down. vm_compute. discriminate. }
  split; [vm_compute; reflexivity|]. split; [exact H0|].
  split; [vm_compute; reflexivity|].
  split; [split; assumption|].
  apply (proj1 acknowledge_task_idempotent); assumption.
Defined.

(** ** C10 *)

(** C10: [store_prediction_result] issues the result write strictly before
    the COMPLETED status write.  Either the result write raises, nothing is
    written and [False] is returned, or the result write lands and only
    then the status write is issued.  A run never writes COMPLETED without
    its result write. *)
Theorem store_result_write_order (pid : string) (r : dict) (w : World) :
  let '(o, w') := store_prediction_result pid r w in
  (o = Ok false /\ redis w' = redis w /\
   trace w' = trace w ++ [(CSetex (result_key pid) result_ttl (RJson r), true)]) \/
  (o = Ok true /\ exists b,
   trace w' = trace w ++ [(CSetex (result_key pid) result_ttl (RJson r), false);
                          (CSetex (status_key pid) result_ttl (RStr "completed"), b)]).
Proof.
  unfold store_prediction_result, set_prediction_status. unfold_monad.
  world_cases w. split_faults.
  all: idtac;
    first [ left; repeat split; reflexivity
          | right; split; [reflexivity|]; eexists; rewrite <- app_assoc; reflexivity ].
Qed.

(** ** Runs without transport failures *)

Lemma result_status_key_neq (pid : string) : result_key pid <> status_key pid.
Proof.
  intros H. assert (E : String.eqb (result_key pid) (status_key pid) = false)
    by reflexivity.
  rewrite H, String.eqb_refl in E. discriminate.
Qed.

Lemma enqueue_prediction_up (pid input : string) (w : World) :
  faults w = [] ->
  fst (enqueue_prediction pid input w) = Ok true /\
  faults (snd (enqueue_prediction pid input w)) = [] /\
  kv (redis (snd (enqueue_prediction pid input w))) =
    <[status_key pid := (RStr "pending", result_ttl)]> (kv (redis w)).
Proof.
  unfold enqueue_prediction, set_prediction_status. unfold_monad.
  world_cases w. intros ->. cbn. auto.
Qed.

Lemma get_next_task_up (w : World) :
  faults w = [] ->
  faults (snd (get_next_task w)) = [] /\
  kv (redis (snd (get_next_task w))) = kv (redis w).
Proof.
  unfold get_next_task. unfold_monad.
  world_cases w. intros ->. cbn.
  destruct (List.filter _ s) as [|e l]; cbn; [auto|].
  destruct (field (entry_fields e) "prediction_id"); cbn; [|auto].
  destruct (field (entry_fields e) "input_data"); cbn; [|auto].
  destruct (field (entry_fields e) "created_at"); cbn; auto.
Qed.

Lemma store_prediction_result_up (pid : string) (r : dict) (w : World) :
  faults w = [] ->
  fst (store_prediction_result pid r w) = Ok true /\
  faults (snd (store_prediction_result pid r w)) = [] /\
  kv (redis (snd (store_prediction_result pid r w))) =
    <[status_key pid := (RStr "completed", result_ttl)]>
      (<[result_key pid := (RJson r, result_ttl)]> (kv (redis w))).
Proof.
  unfold store_prediction_result, set_prediction_status. unfold_monad.
  world_cases w. intros ->. cbn. auto.
Qed.

Lemma acknowledge_task_up (m : nat) (w : World) :
  faults w = [] ->
  fst (acknowledge_task m w) = Ok true /\
  faults (snd (acknowledge_task m w)) = [] /\
  kv (redis (snd (acknowledge_task m w))) = kv (redis w).
Proof.
  unfold acknowledge_task. unfold_monad.
  world_cases w. intros ->. cbn. auto.
Qed.

Lemma read_status_up (pid : string) (w : World) (st : PredictionStatus) (t : Z) :
  faults w = [] ->
  kv (redis w) !! status_key pid = Some (RStr (status_value st), t) ->
  read_status pid w = Ok (Some st).
Proof.
  unfold read_status, get_prediction_status. unfold_monad.
  world_cases w. intros -> H. cbn in H. cbn. rewrite H. destruct st; reflexivity.
Qed.

Lemma get_prediction_result_up (pid : string) (w : World) (d : dict) (t : Z) :
  faults w = [] ->
  kv (redis w) !! result_key pid = Some (RJson d, t) ->
  fst (get_prediction_result pid w) = Ok (Some d).
Proof.
  unfold get_prediction_result. unfold_monad.
  world_cases w. intros -> H. cbn in H. cbn. rewrite H. reflexivity.
Qed.

(** ** C7 *)

(** C7: without transport failures, after [submit(t, p)], a claim by
    [next()], [store_result(t, r)] and [ack], the status of [t] reads
    COMPLETED and its result reads [r]. *)
Theorem submit_claim_store_ack_completed (t p : string) (r : dict)
    (w : World) (tk : Task) (w' : World) :
  faults w = [] ->
  submit_claim_store_ack t p r w = (Ok (Some tk), w') ->
  read_status t w' = Ok (Some COMPLETED) /\
  fst (get_prediction_result t w') = Ok (Some r).
Proof.
  intros Hf H. unfold submit_claim_store_ack, bind in H.
  destruct (enqueue_prediction_up t p w Hf) as [A1 [B1 C1]].
  destruct (enqueue_prediction t p w) as [o1 w1]. cbn in A1, B1, C1. subst o1.
  destruct (get_next_task_up w1 B1) as [B2 C2].
  destruct (get_next_task w1) as [[[tk'|]|e] w2]; cbn in B2, C2;
    [| discriminate | discriminate].
  destruct (store_prediction_result_up t r w2 B2) as [A3 [B3 C3]].
  destruct (store_prediction_result t r w2) as [o3 w3]. cbn in A3, B3, C3. subst o3.
  destruct (acknowledge_task_up (message_id tk') w3 B3) as [A4 [B4 C4]].
  destruct (acknowledge_task (message_id tk') w3) as [o4 w4].
  cbn in A4, B4, C4. subst o4.
  unfold ret in H. injection H as <- <-.
  rewrite C2 in C3. split.
  - apply (read_status_up t w4 COMPLETED result_ttl B4).
    rewrite C4, C3. apply lookup_insert_eq.
  - apply (get_prediction_result_up t w4 r result_ttl B4).
    rewrite C4, C3, lookup_insert_ne by (apply not_eq_sym, result_status_key_neq).
    apply lookup_insert_eq.
Qed.

Lemma submit_claim_store_ack_completed_witness :
  let w' := snd (submit_claim_store_ack "t1" "hello" [("result", "42")] (world0 [])) in
  read_status "t1" w' = Ok (Some COMPLETED) /\
  fst (get_prediction_result "t1" w') = Ok (Some [("result", "42")]).
Proof.
  apply (submit_claim_store_ack_completed "t1" "hello" [("result", "42")] (world0 [])
           {| message_id := 1; prediction_id := "t1"; input_data := "hello";
              created_at := "2026-01-01T00:00:00" |}); reflexivity.
Defined.

(** ** C2 *)

(** C2 (code defect): [enqueue_prediction] discards the boolean returned by
    [set_prediction_status].  When the SETEX of the PENDING status raises
    and the XADD succeeds, [submit] returns [True] although no status record
    was written. *)
Theorem enqueue_prediction_status_write_lost :
  let '(o, w') := enqueue_prediction "t1" "hello" (world0 [true]) in
  o = Ok true /\ read_status "t1" w' = Ok None /\ length (stream (redis w')) = 1%nat.
Proof. vm_compute. repeat split. Qed.

(** ** C3 *)

(** C3 (code defect): [store_prediction_result] discards the boolean
    returned by [set_prediction_status].  When the result SETEX succeeds
    and the COMPLETED SETEX raises, [store_result] returns [True], and the
    task stays PROCESSING, which the endpoint reports as still being
    processed. *)
Theorem store_prediction_result_status_write_lost :
  let w := snd (set_prediction_status "task-0001" PROCESSING
                  (snd (enqueue_prediction "task-0001" "hello" (world0 [])))) in
  let '(o, w') := store_prediction_result "task-0001" [("result", "42")] (with_faults w [false; true]) in
  o = Ok true /\ read_status "task-0001" w' = Ok (Some PROCESSING) /\
  fst (get_prediction_result "task-0001" w') = Ok (Some [("result", "42")]) /\
  fst (Routes.get_prediction_result "task-0001" w') =
    Ok (Routes.HTTPError 400 "Prediction is still being processed.").
Proof. vm_compute. repeat split. Qed.

(** ** C1 *)

(** C1 (as stated, refuted): on a successful run of the background
    worker, the number of XACK commands issued is not one. *)
Lemma process_async_prediction_ack_count :
  acks (trace (snd (Routes.process_async_prediction
                      (fun i => Ok [("input", i); ("result", "42")])
                      "t1" "hello" (world0 [])))) <> 1%nat.
Proof. vm_compute. discriminate. Qed.

(** C1, amended: the background worker [process_async_prediction] never
    acknowledges anything.  Whatever the work and the transport do, it only
    issues SETEX commands (status and result writes): no XACK, and the
    stream and the group's pending entries list are untouched. *)
Theorem process_async_prediction_never_acks (predict : string -> res dict)
    (pid input : string) (w : World) :
  let w' := snd (Routes.process_async_prediction predict pid input w) in
  exists tr, trace w' = trace w ++ tr /\ acks tr = 0%nat /\
    Forall (fun e => is_setex (fst e) = true) tr /\
    pel (redis w') = pel (redis w) /\ stream (redis w') = stream (redis w).
Proof.
  unfold Routes.process_async_prediction, store_prediction_result,
    set_prediction_status. unfold_monad.
  world_cases w. destruct (predict input) as [d|e]; cbn; split_faults;
    eexists; (split; [rewrite <- ?app_assoc; reflexivity|]);
    cbn; repeat split; repeat constructor.
Qed.

(** ** C4 *)

(** C4 (as stated, refuted): a task that reached COMPLETED goes back to
    PENDING when it is submitted again under the same id: status writes
    are unconditional overwrites. *)
Lemma status_regresses_on_resubmit :
  let w1 := snd (enqueue_prediction "task-0001" "x" (world0 [])) in
  let w2 := snd (store_prediction_result "task-0001" [("result", "42")] w1) in
  let w3 := snd (enqueue_prediction "task-0001" "x" w2) in
  read_status "task-0001" w2 = Ok (Some COMPLETED) /\
  read_status "task-0001" w3 = Ok (Some PENDING).
Proof. vm_compute. split; reflexivity. Qed.

(** C4, amended: status writes overwrite unconditionally, so [submit] and
    [set_status] can move a task out of a terminal state; the background
    worker itself writes, for its task, PROCESSING and then at most one
    terminal status, in that order: the statuses it writes form an
    order-preserving sublist of [PROCESSING; X] with X COMPLETED or FAILED
    (so never X before PROCESSING, and never two terminal statuses). *)
Theorem process_async_prediction_status_order (predict : string -> res dict)
    (pid input : string) (w : World) :
  let w' := snd (Routes.process_async_prediction predict pid input w) in
  exists tr, trace w' = trace w ++ tr /\
    exists X, (X = COMPLETED \/ X = FAILED) /\
      status_writes pid tr `sublist_of` [PROCESSING; X].
Proof.
  unfold Routes.process_async_prediction, store_prediction_result,
    set_prediction_status. unfold_monad.
  pose proof (result_status_key_neq pid) as Hne.
  apply String.eqb_neq in Hne.
  world_cases w. destruct (predict input) as [d|e]; cbn; split_faults;
    eexists; (split; [rewrite <- ?app_assoc; reflexivity|]);
    cbn [status_writes app]; rewrite ?String.eqb_refl, ?Hne; cbn;
    first [ exists COMPLETED; split; [left; reflexivity|]; solve [repeat constructor]
          | exists FAILED; split; [right; reflexivity|]; solve [repeat constructor] ].
Qed.

(** ** C5 *)




(** ** Well-formedness of the stream and the consumer group *)

Section Preservation.

Lemma command_pres {A} (c : Command) (eff : Redis -> A * Redis) :
  (forall r, WF r -> WF (snd (eff r))) -> preserves (command c eff).
Proof.
  intros H w Hw. unfold command.
  destruct (faults w) as [|[|] fs]; cbn;
    try (destruct (eff (redis w)) as [a r'] eqn:E; cbn;
         specialize (H _ Hw); rewrite E in H; exact H).
  exact Hw.
Qed.

Lemma ret_pres {A} (a : A) : preserves (ret a).
Proof. intros w Hw. exact Hw. Qed.

Lemma raise_pres {A} (e : exn) : preserves (@raise A e).
Proof. intros w Hw. exact Hw. Qed.

Lemma lift_pres {A} (r : res A) : preserves (lift r).
Proof. intros w Hw. exact Hw. Qed.

Lemma now_pres : preserves now.
Proof. intros w Hw. exact Hw. Qed.

Lemma bind_pres {A B} (m : M A) (k : A -> M B) :
  preserves m -> (forall a, preserves (k a)) -> preserves (bind m k).
Proof.
  intros Hm Hk w Hw. unfold bind. specialize (Hm w Hw).
  destruct (m w) as [[a|e] w']; cbn in *; [apply Hk|]; exact Hm.
Qed.

Lemma try_except_pres {A} (m : M A) (h : exn -> M A) :
  preserves m -> (forall e, preserves (h e)) -> preserves (try_except m h).
Proof.
  intros Hm Hh w Hw. unfold try_except. specialize (Hm w Hw).
  destruct (m w) as [[a|e] w']; cbn in *; [|apply Hh]; exact Hm.
Qed.

Lemma with_kv_WF (r : Redis) m : WF r -> WF (with_kv r m).
Proof. intros H. exact H. Qed.

Lemma setex_pres k t v : preserves (setex k t v).
Proof. apply command_pres. intros r H. apply with_kv_WF, H. Qed.

Lemma get_pres k : preserves (get k).
Proof. apply command_pres. intros r H. exact H. Qed.

Lemma keys_pres p : preserves (keys_prefix p).
Proof. apply command_pres. intros r H. exact H. Qed.

Lemma ttl_pres k : preserves (ttl k).
Proof. apply command_pres. intros r H. exact H. Qed.

Lemma expire_pres k t : preserves (expire k t).
Proof.
  apply command_pres. intros r H. cbn.
  destruct (kv r !! k) as [[v u]|]; [apply with_kv_WF|]; exact H.
Qed.

Lemma strongly_sorted_snoc (l : list nat) (a : nat) :
  StronglySorted lt l -> Forall (fun x => (x < a)%nat) l ->
  StronglySorted lt (l ++ [a]).
Proof.
  induction l as [|x l IH]; intros Hs Hf; cbn.
  - constructor; constructor.
  - inversion Hs as [|? ? Hs' Hx]; subst. inversion Hf; subst.
    constructor; [apply IH; assumption|].
    apply Forall_app; split; [assumption|]. constructor; [assumption|constructor].
Qed.

Lemma xadd_pres fs : preserves (xadd fs).
Proof.
  apply command_pres. intros r (Hs & Hb & Hd & Hp). unfold WF. cbn.
  repeat split.
  - rewrite List.map_app. apply strongly_sorted_snoc; [assumption|].
    apply List.Forall_map. eapply Forall_impl; [exact Hb|]. intros e He. cbn in *. lia.
  - apply Forall_app. split; [|constructor; [cbn; lia|constructor]].
    eapply Forall_impl; [exact Hb|]. intros e He. cbn in *. lia.
  - cbn. lia.
  - exact Hp.
Qed.

Lemma xreadgroup_pres : preserves xreadgroup_one.
Proof.
  apply command_pres. intros r (Hs & Hb & Hd & Hp).
  destruct (List.filter _ (stream r)) as [|e l] eqn:E;
    unfold WF; cbn; [repeat split; assumption|].
  assert (He : In e (List.filter (fun e => Nat.ltb (last_delivered r) (entry_id e)) (stream r)))
    by (rewrite E; left; reflexivity).
  apply List.filter_In in He as [Hin Hlt]. apply Nat.ltb_lt in Hlt.
  rewrite List.Forall_forall in Hb. pose proof (Hb e Hin).
  repeat split; cbn; try assumption; try lia.
  - apply List.Forall_forall. intros x Hx. exact (Hb x Hx).
  - apply Forall_app. split.
    + eapply Forall_impl; [exact Hp|]. intros m Hm. cbn in *. lia.
    + constructor; [cbn; lia|constructor].
Qed.

Lemma xack_pres m : preserves (xack m).
Proof.
  apply command_pres. intros r (Hs & Hb & Hd & Hp). unfold WF. cbn.
  repeat split; try assumption.
  apply List.Forall_forall. intros x Hx. apply List.filter_In in Hx as [Hx _].
  rewrite List.Forall_forall in Hp. exact (Hp x Hx).
Qed.

End Preservation.

Ltac pres_tac :=
  repeat first
    [ apply bind_pres; intros
    | apply try_except_pres; intros
    | apply ret_pres | apply raise_pres | apply lift_pres | apply now_pres
    | apply setex_pres | apply get_pres | apply xadd_pres | apply xreadgroup_pres
    | apply xack_pres | apply keys_pres | apply ttl_pres | apply expire_pres
    | match goal with |- preserves (match ?x with _ => _ end) => destruct x end ].

Lemma enqueue_prediction_pres pid input : preserves (enqueue_prediction pid input).
Proof.
  unfold enqueue_prediction. pres_tac.
Qed.

Lemma WF_empty : WF empty_redis.
Proof. unfold WF; cbn; repeat split; constructor. Qed.

(** What a successful [get_next_task] does: it hands out an entry of the
    stream past the group cursor, moves the cursor to it and makes it
    pending. *)
Lemma get_next_task_some (w : World) (tk : Task) :
  fst (get_next_task w) = Ok (Some tk) ->
  exists e, In e (stream (redis w)) /\
    (last_delivered (redis w) < entry_id e)%nat /\
    message_id tk = entry_id e /\
    last_delivered (redis (snd (get_next_task w))) = entry_id e /\
    pel (redis (snd (get_next_task w))) = pel (redis w) ++ [entry_id e] /\
    stream (redis (snd (get_next_task w))) = stream (redis w).
Proof.
  unfold get_next_task. unfold_monad. world_cases w.
  destruct fs as [|[|] fs]; cbn; try discriminate;
  (destruct (List.filter _ s) as [|e l] eqn:E; cbn; [discriminate|]);
  (assert (He : In e (e :: l)) by (left; reflexivity)); rewrite <- E in He;
  apply List.filter_In in He as [Hin Hlt]; apply Nat.ltb_lt in Hlt;
  (destruct (field (entry_fields e) "prediction_id"); cbn; [|discriminate]);
  (destruct (field (entry_fields e) "input_data"); cbn; [|discriminate]);
  (destruct (field (entry_fields e) "created_at"); cbn; [|discriminate]);
  intros H; injection H as <-; exists e; cbn; repeat split; assumption.
Qed.

(** X2: two successive [get_next_task] calls that both hand out a task
    hand out strictly increasing stream ids: the same entry is never
    delivered twice in a row. *)
Theorem get_next_task_successive (w : World) (tk1 tk2 : Task) :
  fst (get_next_task w) = Ok (Some tk1) ->
  fst (get_next_task (snd (get_next_task w))) = Ok (Some tk2) ->
  (message_id tk1 < message_id tk2)%nat.
Proof.
  intros H1 H2.
  destruct (get_next_task_some w tk1 H1) as (e1 & _ & _ & Hm1 & Hc1 & _).
  destruct (get_next_task_some _ tk2 H2) as (e2 & _ & Hlt & Hm2 & _).
  rewrite Hc1 in Hlt. lia.
Qed.

Lemma get_next_task_successive_witness :
  fst (get_next_task two_submitted) =
    Ok (Some {| message_id := 1; prediction_id := "task-0001"; input_data := "x";
                created_at := "2026-01-01T00:00:00" |}) /\
  fst (get_next_task (snd (get_next_task two_submitted))) =
    Ok (Some {| message_id := 2; prediction_id := "task-0002"; input_data := "y";
                created_at := "2026-01-01T00:00:00" |}) /\
  (1 < 2)%nat.
Proof.
  split; [vm_compute; reflexivity|]. split; [vm_compute; reflexivity|].
  apply (get_next_task_successive two_submitted
    {| message_id := 1; prediction_id := "task-0001"; input_data := "x";
       created_at := "2026-01-01T00:00:00" |}
    {| message_id := 2; prediction_id := "task-0002"; input_data := "y";
       created_at := "2026-01-01T00:00:00" |}); vm_compute; reflexivity.
Defined.

Lemma filter_all_delivered (ld : nat) (s : list StreamEntry) :
  Forall (fun e => (entry_id e <= ld)%nat) s ->
  List.filter (fun e => Nat.ltb ld (entry_id e)) s = [].
Proof.
  induction s as [|e s IH]; intros H; cbn [List.filter]; [reflexivity|].
  inversion H as [|? ? He Hs]; subst.
  destruct (Nat.ltb_spec ld (entry_id e)); [lia|]. apply IH, Hs.
Qed.

(** X3: on a well-formed server where every entry has been delivered,
    [enqueue_prediction(pid, input)] followed by [get_next_task] (no
    transport failure) hands back exactly the submitted task: the new
    stream id, [pid], [input] and the submission time. *)
Theorem enqueue_then_next (pid input : string) (w : World) :
  faults w = [] -> WF (redis w) ->
  Forall (fun e => (entry_id e <= last_delivered (redis w))%nat) (stream (redis w)) ->
  fst (get_next_task (snd (enqueue_prediction pid input w))) =
    Ok (Some {| message_id := S (last_id (redis w)); prediction_id := pid;
                input_data := input; created_at := utc_now w |}).
Proof.
  unfold get_next_task, enqueue_prediction, set_prediction_status. unfold_monad.
  destruct w as [[m s li ld p] fs tr nw]. cbn -[Nat.ltb].
  intros -> (_ & _ & Hd & _) Hall. cbn -[Nat.ltb] in *.
  rewrite List.filter_app, filter_all_delivered by exact Hall. cbn -[Nat.ltb].
  destruct (Nat.ltb_spec ld (S li)); [|lia]. cbn. reflexivity.
Qed.

Lemma enqueue_then_next_witness :
  (faults (world0 []) = [] /\ WF (redis (world0 [])) /\
   Forall (fun e => (entry_id e <= last_delivered (redis (world0 [])))%nat)
          (stream (redis (world0 [])))) /\
  fst (get_next_task (snd (enqueue_prediction "task-0001" "hello" (world0 [])))) =
    Ok (Some {| message_id := 1; prediction_id := "task-0001"; input_data := "hello";
                created_at := "2026-01-01T00:00:00" |}).
Proof.
  assert (HW : WF (redis (world0 []))) by (apply WF_empty).
  split; [split; [reflexivity|split; [exact HW|constructor]]|].
  apply (enqueue_then_next "task-0001" "hello" (world0 [])); [reflexivity|exact HW|constructor].
Defined.

(** X4: on a well-formed server without transport failures, a task handed
    out by [get_next_task] and then acknowledged with its [message_id]
    leaves the group's pending entries list exactly as it was before. *)
Theorem next_then_ack_restores_pel (w : World) (tk : Task) :
  faults w = [] -> WF (redis w) ->
  fst (get_next_task w) = Ok (Some tk) ->
  pel (redis (snd (acknowledge_task (message_id tk) (snd (get_next_task w))))) =
    pel (redis w).
Proof.
  intros Hf (_ & _ & _ & Hp) H.
  destruct (get_next_task_some w tk H) as (e & _ & Hlt & Hm & _ & Hpel & _).
  assert (Hf2 : faults (snd (get_next_task w)) = []) by (apply get_next_task_up, Hf).
  revert Hf2 Hpel. unfold acknowledge_task. unfold_monad.
  destruct (snd (get_next_task w)) as [r' fs' tr' nw'] eqn:E2. cbn.
  intros -> Hpel. cbn. rewrite Hpel, Hm, List.filter_app. cbn.
  rewrite Nat.eqb_refl, app_nil_r. apply filter_not_elem.
  intros Hin. rewrite List.Forall_forall in Hp.
  apply list_elem_of_In, Hp in Hin. lia.
Qed.

Lemma next_then_ack_restores_pel_witness :
  let w := snd (enqueue_prediction "task-0001" "hello" (world0 [])) in
  (faults w = [] /\ WF (redis w) /\
   fst (get_next_task w) =
     Ok (Some {| message_id := 1; prediction_id := "task-0001"; input_data := "hello";
                 created_at := "2026-01-01T00:00:00" |})) /\
  pel (redis (snd (acknowledge_task 1 (snd (get_next_task w))))) = pel (redis w).
Proof.
  cbn zeta.
  assert (HW : WF (redis (snd (enqueue_prediction "task-0001" "hello" (world0 []))))).
  { apply enqueue_prediction_pres. apply WF_empty. }
  split; [split; [reflexivity|split; [exact HW|vm_compute; reflexivity]]|].
  apply (next_then_ack_restores_pel _
    {| message_id := 1; prediction_id := "task-0001"; input_data := "hello";
       created_at := "2026-01-01T00:00:00" |}); [reflexivity|exact HW|vm_compute; reflexivity].
Defined.

Lemma PredictionStatus_of_value (st : PredictionStatus) :
  PredictionStatus_of (status_value st) = Some st.
Proof. destruct st; reflexivity. Qed.

Lemma PredictionStatus_of_inv (v : string) (st : PredictionStatus) :
  PredictionStatus_of v = Some st -> v = status_value st.
Proof.
  unfold PredictionStatus_of.
  destruct (String.eqb_spec v "pending"); [intros [= <-]; auto|].
  destruct (String.eqb_spec v "processing"); [intros [= <-]; auto|].
  destruct (String.eqb_spec v "completed"); [intros [= <-]; auto|].
  destruct (String.eqb_spec v "failed"); [intros [= <-]; auto|].
  discriminate.
Qed.

(** What a fault-free [get_prediction_status] reads that is a status. *)
Lemma read_status_some_key (pid : string) (w : World) (st : PredictionStatus) :
  faults w = [] -> read_status pid w = Ok (Some st) ->
  exists t, kv (redis w) !! status_key pid = Some (RStr (status_value st), t).
Proof.
  unfold read_status, get_prediction_status. unfold_monad.
  world_cases w. intros Hf. subst fs. cbn.
  destruct (m !! status_key pid) as [[[v|d] t]|]; cbn; try discriminate.
  destruct (String.eqb v ""); cbn; [discriminate|].
  destruct (PredictionStatus_of v) eqn:E; cbn; [|discriminate].
  intros [= ->]. apply PredictionStatus_of_inv in E. subst v. eauto.
Qed.

(** X5: without a transport failure, [get_prediction_status] reads a
    status [st] exactly when the status key of the task holds the text
    [st.value]; when the key holds no status value at all (it is missing,
    empty, or holds any other text) it reads [None]. *)
Theorem read_status_iff (pid : string) (w : World) :
  faults w = [] ->
  (forall st, read_status pid w = Ok (Some st) <->
     exists t, kv (redis w) !! status_key pid = Some (RStr (status_value st), t)) /\
  ((forall st t, kv (redis w) !! status_key pid <> Some (RStr (status_value st), t)) ->
     read_status pid w = Ok None).
Proof.
  intros Hf. split.
  - intros st. split; [apply read_status_some_key, Hf|].
    intros [t Ht]. exact (read_status_up pid w st t Hf Ht).
  - intros Hno.
    assert (Hr : exists o, read_status pid w = Ok o).
    { unfold read_status, get_prediction_status. unfold_monad.
      world_cases w. cbn in Hf. subst fs. cbn.
      destruct (m !! status_key pid) as [[[v|d] t]|]; cbn; eauto.
      destruct (String.eqb v ""); cbn; eauto.
      destruct (PredictionStatus_of v); cbn; eauto. }
    destruct Hr as [[st|] Hr]; [|exact Hr].
    destruct (read_status_some_key pid w st Hf Hr) as [t Ht].
    exfalso. exact (Hno st t Ht).
Qed.

Lemma read_status_iff_witness :
  let w1 := snd (set_prediction_status "task-0001" COMPLETED (world0 [])) in
  let w2 := snd (setex (status_key "task-0001") result_ttl (RStr "done") (world0 [])) in
  (faults w1 = [] /\ faults w2 = [] /\
   kv (redis w1) !! status_key "task-0001" = Some (RStr (status_value COMPLETED), result_ttl) /\
   (forall st t, kv (redis w2) !! status_key "task-0001" <> Some (RStr (status_value st), t))) /\
  read_status "task-0001" w1 = Ok (Some COMPLETED) /\
  read_status "task-0001" w2 = Ok None.
Proof.
  cbn zeta.
  assert (H1 : faults (snd (set_prediction_status "task-0001" COMPLETED (world0 []))) = [])
    by reflexivity.
  assert (H2 : faults (snd (setex (status_key "task-0001") result_ttl (RStr "done")
                                 (world0 []))) = []) by reflexivity.
  assert (K1 : kv (redis (snd (set_prediction_status "task-0001" COMPLETED (world0 []))))
                 !! status_key "task-0001" = Some (RStr (status_value COMPLETED), result_ttl))
    by (vm_compute; reflexivity).
  assert (K2 : forall st t,
     kv (redis (snd (setex (status_key "task-0001") result_ttl (RStr "done") (world0 []))))
       !! status_key "task-0001" <> Some (RStr (status_value st), t)).
  { intros st t. vm_compute. destruct st; intros [=]. }
  split; [repeat split; assumption|]. split.
  - apply (proj1 (read_status_iff "task-0001" _ H1) COMPLETED). exists result_ttl. exact K1.
  - apply (proj2 (read_status_iff "task-0001" _ H2)). exact K2.
Defined.

(** X6: without a transport failure, a status written by
    [set_prediction_status] is read back by [get_prediction_status]. *)
Theorem set_then_get_status (pid : string) (st : PredictionStatus) (w : World) :
  faults w = [] ->
  read_status pid (snd (set_prediction_status pid st w)) = Ok (Some st).
Proof.
  intros Hf. apply (read_status_up pid _ st result_ttl).
  - revert Hf. unfold set_prediction_status. unfold_monad. world_cases w.
    intros ->. reflexivity.
  - revert Hf. unfold set_prediction_status. unfold_monad. world_cases w.
    intros ->. cbn. apply lookup_insert_eq.
Qed.

Lemma set_then_get_status_witness :
  faults (world0 []) = [] /\
  read_status "task-0001" (snd (set_prediction_status "task-0001" FAILED (world0 []))) =
    Ok (Some FAILED).
Proof. split; [reflexivity|]. apply set_then_get_status. reflexivity. Defined.

Lemma string_append_inj (p a b : string) :
  String.append p a = String.append p b -> a = b.
Proof.
  induction p as [|c p IH]; cbn; [auto|]. intros H. injection H. exact IH.
Qed.

Lemma result_key_not_status_key (q pid : string) : result_key q <> status_key pid.
Proof.
  intros H. assert (E : String.eqb (result_key q) (status_key pid) = false)
    by reflexivity.
  rewrite H, String.eqb_refl in E. discriminate.
Qed.

(** X7: [set_prediction_status pid st] touches nothing but the status of
    [pid]: whatever the transport does, the status records of the other
    tasks and every result record keep their value. *)
Theorem set_prediction_status_frame (pid : string) (st : PredictionStatus) (w : World) :
  let w' := snd (set_prediction_status pid st w) in
  (forall pid', pid' <> pid ->
     kv (redis w') !! status_key pid' = kv (redis w) !! status_key pid') /\
  (forall q, kv (redis w') !! result_key q = kv (redis w) !! result_key q).
Proof.
  unfold set_prediction_status. unfold_monad. world_cases w.
  destruct fs as [|[|] fs]; cbn; split; intros; try reflexivity;
    apply lookup_insert_ne;
    first [ intros E; apply string_append_inj in E; congruence
          | apply not_eq_sym, result_key_not_status_key ].
Qed.

Lemma set_prediction_status_frame_witness :
  kv (redis (snd (set_prediction_status "task-0001" COMPLETED two_submitted)))
    !! status_key "task-0002" = Some (RStr "pending", result_ttl).
Proof.
  rewrite (proj1 (set_prediction_status_frame "task-0001" COMPLETED two_submitted)
             "task-0002"); [vm_compute; reflexivity|discriminate].
Defined.

(** X8: without transport failures, the background worker ends in
    COMPLETED with the work's result stored when the work returns [d], and
    in FAILED with the task's result record untouched when the work
    raises. *)
Theorem process_async_prediction_outcome (predict : string -> res dict)
    (pid input : string) (w : World) :
  faults w = [] ->
  let w' := snd (Routes.process_async_prediction predict pid input w) in
  (forall d, predict input = Ok d ->
     read_status pid w' = Ok (Some COMPLETED) /\
     kv (redis w') !! result_key pid = Some (RJson d, result_ttl)) /\
  (forall e, predict input = Exc e ->
     read_status pid w' = Ok (Some FAILED) /\
     kv (redis w') !! result_key pid = kv (redis w) !! result_key pid).
Proof.
  intros Hf. assert (Hne := result_key_not_status_key pid pid).
  split; intros x Hx;
    (split; [ apply read_status_up with (t := result_ttl) | ]);
    revert Hf; unfold Routes.process_async_prediction, store_prediction_result,
      set_prediction_status; unfold_monad; world_cases w; intros ->; cbn;
    rewrite Hx; cbn;
    rewrite ?lookup_insert_eq; try reflexivity;
    rewrite ?lookup_insert_ne by (apply not_eq_sym; exact Hne);
    rewrite ?lookup_insert_eq; reflexivity.
Qed.

Lemma process_async_prediction_outcome_witness :
  faults (world0 []) = [] /\
  read_status "task-0001"
    (snd (Routes.process_async_prediction
            (fun i => PredictionService.async_model_predict i 4242 true)
            "task-0001" "x" (world0 []))) = Ok (Some FAILED).
Proof.
  split; [reflexivity|].
  apply (proj2 (process_async_prediction_outcome
                  (fun i => PredictionService.async_model_predict i 4242 true)
                  "task-0001" "x" (world0 []) eq_refl) PredictionError eq_refl).
Defined.





Lemma lstrip_cps_nil (l : list Z) :
  lstrip_cps l = [] <-> forallb py_isspace l = true.
Proof.
  induction l as [|c l IH]; cbn; [tauto|].
  destruct (py_isspace c); cbn; [exact IH|split; discriminate].
Qed.

Lemma forallb_lstrip_cps (l : list Z) :
  forallb py_isspace (lstrip_cps l) = forallb py_isspace l.
Proof.
  induction l as [|c l IH]; cbn; [reflexivity|].
  destruct (py_isspace c) eqn:E; cbn; [exact IH|rewrite E; reflexivity].
Qed.

Lemma forallb_rev_cps (l : list Z) :
  forallb py_isspace (rev l) = forallb py_isspace l.
Proof.
  induction l as [|c l IH]; cbn; [reflexivity|].
  rewrite forallb_app, IH. cbn. rewrite andb_true_r, andb_comm. reflexivity.
Qed.

(** [len(s.strip()) == 0] exactly when every code point of [s] is
    whitespace. *)
Lemma strip_length_0 (l : list Z) :
  length (strip l) = 0%nat <-> forallb py_isspace l = true.
Proof.
  unfold strip. rewrite length_rev, length_zero_iff_nil, lstrip_cps_nil,
    forallb_rev_cps, forallb_lstrip_cps. reflexivity.
Qed.

Lemma post_predict_valid (input : string) (mode : option string) (new_id : string)
    (n : Z) :
  1 <= py_len input <= 10000 ->
  Routes.post_predict input mode new_id n = Routes.predict input mode new_id n.
Proof.
  intros Hl. unfold Routes.post_predict.
  replace (orb _ _) with false; [reflexivity|].
  symmetry. apply orb_false_iff. split; apply Z.ltb_ge; lia.
Qed.

Lemma strip_nonempty (input : string) :
  forallb py_isspace (code_points input) = false ->
  Nat.eqb (length (strip (code_points input))) 0 = false.
Proof. intros H. apply Nat.eqb_neq. rewrite strip_length_0. congruence. Qed.

(** X11: [POST /predict] with a valid body whose input is made only of
    whitespace (in the sense of Python's [str.strip()], e.g. U+00A0 or
    U+3000) answers 400 "Input cannot be empty", issues no Redis command
    and schedules no background task. *)
Theorem predict_blank_input (input : string) (mode : option string)
    (new_id : string) (n : Z) (w : World) :
  1 <= py_len input <= 10000 ->
  forallb py_isspace (code_points input) = true ->
  Routes.post_predict input mode new_id n w =
    (Ok (Routes.PostError 400 "Input cannot be empty", []), w).
Proof.
  intros Hl H. rewrite post_predict_valid by exact Hl. unfold Routes.predict.
  apply strip_length_0 in H. rewrite H. reflexivity.
Qed.

Lemma predict_blank_input_witness :
  (1 <= py_len nbsp <= 10000 /\ forallb py_isspace (code_points nbsp) = true) /\
  Routes.post_predict nbsp (Some "true") "task-0001" 1234 (world0 []) =
    (Ok (Routes.PostError 400 "Input cannot be empty", []), world0 []).
Proof.
  assert (H1 : 1 <= py_len nbsp <= 10000) by (split; vm_compute; discriminate).
  assert (H2 : forallb py_isspace (code_points nbsp) = true) by (vm_compute; reflexivity).
  split; [split; assumption|]. apply predict_blank_input; assumption.
Defined.



(** X12: [POST /predict] with a valid, non-blank input and an
    [Async-Mode] header equal to "true" in any letter case, without
    transport failures, answers 200 (the route sets no other code) with
    the fresh id, schedules exactly that id's background processing,
    records the id as PENDING and appends one stream entry carrying the
    id, the input and the submission time. *)
Theorem predict_async_accepted (input a new_id : string) (n : Z) (w : World) :
  1 <= py_len input <= 10000 ->
  forallb py_isspace (code_points input) = false ->
  lower a = "true" -> faults w = [] ->
  let '(o, w') := Routes.post_predict input (Some a) new_id n w in
  o = Ok (Routes.AsyncPredictionResponse
            "Request received. Processing asynchronously." new_id, [(new_id, input)]) /\
  Routes.post_status_code
    (Routes.AsyncPredictionResponse "Request received. Processing asynchronously." new_id)
    = 200 /\
  read_status new_id w' = Ok (Some PENDING) /\
  stream (redis w') = stream (redis w) ++
    [{| entry_id := S (last_id (redis w));
        entry_fields := [("prediction_id", new_id); ("input_data", input);
                         ("created_at", utc_now w)] |}].
Proof.
  intros Hl Hs Ha Hf. rewrite post_predict_valid by exact Hl. unfold Routes.predict.
  rewrite (strip_nonempty input Hs), Ha. cbn [String.eqb Ascii.eqb Bool.eqb andb].
  destruct (enqueue_prediction_up new_id input w Hf) as [A [B C]].
  unfold bind. destruct (enqueue_prediction new_id input w) as [o1 w1] eqn:E.
  cbn in A, B, C. subst o1. cbn. split; [reflexivity|]. split; [reflexivity|]. split.
  - apply (read_status_up new_id w1 PENDING result_ttl B). rewrite C.
    apply lookup_insert_eq.
  - revert E Hf. unfold enqueue_prediction, set_prediction_status. unfold_monad.
    world_cases w. intros E ->. cbn in E. injection E as <-. reflexivity.
Qed.

Lemma predict_async_accepted_witness :
  (1 <= py_len "hello" <= 10000 /\
   forallb py_isspace (code_points "hello") = false /\ lower "TRUE" = "true" /\
   faults (world0 []) = []) /\
  fst (Routes.post_predict "hello" (Some "TRUE") "task-0001" 1234 (world0 [])) =
    Ok (Routes.AsyncPredictionResponse
          "Request received. Processing asynchronously." "task-0001",
        [("task-0001", "hello")]).
Proof.
  assert (H1 : 1 <= py_len "hello" <= 10000) by (split; vm_compute; discriminate).
  assert (H2 : forallb py_isspace (code_points "hello") = false) by (vm_compute; reflexivity).
  split; [split; [exact H1|split; [exact H2|split; reflexivity]]|].
  pose proof (predict_async_accepted "hello" "TRUE" "task-0001" 1234 (world0 [])
                H1 H2 eq_refl eq_refl) as H.
  destruct (Routes.post_predict "hello" (Some "TRUE") "task-0001" 1234 (world0 []))
    as [o w'].
  exact (proj1 H).
Defined.

(** X13: [POST /predict] in asynchronous mode with a valid, non-blank
    input answers 500 "Failed to enqueue prediction task" and schedules
    no background task when the XADD of the submission raises (whatever
    happened to the status write before it). *)
Theorem predict_async_enqueue_failure (input a new_id : string) (n : Z) (w : World)
    (b : bool) (fs : list bool) :
  1 <= py_len input <= 10000 ->
  forallb py_isspace (code_points input) = false -> lower a = "true" ->
  faults w = b :: true :: fs ->
  fst (Routes.post_predict input (Some a) new_id n w) =
    Ok (Routes.PostError 500 "Failed to enqueue prediction task", []).
Proof.
  intros Hl Hs Ha Hf. rewrite post_predict_valid by exact Hl. unfold Routes.predict.
  rewrite (strip_nonempty input Hs), Ha. cbn [String.eqb Ascii.eqb Bool.eqb andb].
  unfold enqueue_prediction, set_prediction_status. unfold_monad.
  world_cases w. cbn in Hf. subst fs0. destruct b; reflexivity.
Qed.

Lemma predict_async_enqueue_failure_witness :
  (1 <= py_len "hello" <= 10000 /\
   forallb py_isspace (code_points "hello") = false /\ lower "true" = "true" /\
   faults (world0 [false; true]) = false :: true :: []) /\
  fst (Routes.post_predict "hello" (Some "true") "task-0001" 1234 (world0 [false; true])) =
    Ok (Routes.PostError 500 "Failed to enqueue prediction task", []).
Proof.
  assert (H1 : 1 <= py_len "hello" <= 10000) by (split; vm_compute; discriminate).
  assert (H2 : forallb py_isspace (code_points "hello") = false) by (vm_compute; reflexivity).
  split; [split; [exact H1|split; [exact H2|split; reflexivity]]|].
  apply (predict_async_enqueue_failure "hello" "true" "task-0001" 1234
           (world0 [false; true]) false []); [exact H1|exact H2|reflexivity|reflexivity].
Defined.

Lemma digit_char_is_digit (d : Z) : 0 <= d < 10 -> is_digit_char (digit_char d) = true.
Proof.
  intros Hd. unfold is_digit_char, digit_char.
  rewrite Ascii.nat_ascii_embedding by lia.
  apply andb_true_iff; split; apply Nat.leb_le; lia.
Qed.

Lemma digits_aux_digits (fuel : nat) (n : Z) (acc : string) :
  0 <= n -> forallb is_digit_char (String.list_ascii_of_string acc) = true ->
  forallb is_digit_char (String.list_ascii_of_string (digits_aux fuel n acc)) = true.
Proof.
  revert n acc. induction fuel as [|f IH]; intros n acc Hn Hacc; cbn; [exact Hacc|].
  assert (Hc : forallb is_digit_char
                 (String.list_ascii_of_string (String.String (digit_char (n mod 10)) acc)) = true).
  { cbn. rewrite digit_char_is_digit by (apply Z.mod_pos_bound; lia). exact Hacc. }
  destruct (Z.ltb n 10); [exact Hc|]. apply IH; [apply Z.div_pos; lia|exact Hc].
Qed.

Lemma digits_aux_nonempty (fuel : nat) (n : Z) (acc : string) :
  (fuel <> 0%nat \/ acc <> "") -> digits_aux fuel n acc <> "".
Proof.
  revert n acc. induction fuel as [|f IH]; intros n acc H; cbn.
  - destruct H as [H|H]; [congruence|exact H].
  - destruct (Z.ltb n 10); [discriminate|]. apply IH. right. discriminate.
Qed.

(** [str(n)] of a non-negative int is a non-empty string of decimal
    digits. *)
Lemma str_of_Z_isdigit (n : Z) : 0 <= n -> isdigit (str_of_Z n) = true.
Proof.
  intros Hn. unfold str_of_Z. destruct (Z.ltb_spec n 0); [lia|].
  unfold isdigit. apply andb_true_iff. split.
  - apply negb_true_iff, Nat.eqb_neq. intros Hl.
    apply (digits_aux_nonempty (S (Z.to_nat n)) n "") ; [left; discriminate|].
    destruct (digits_aux (S (Z.to_nat n)) n ""); [reflexivity|discriminate].
  - apply (digits_aux_digits _ n ""); [exact Hn|reflexivity].
Qed.

(** X14: [POST /predict] in synchronous mode (no [Async-Mode] header, or
    one that is not "true" in any letter case) with a valid, non-blank
    input issues no Redis command, schedules no background task and
    answers 200 echoing the input with the mock model's result [str(n)];
    for the drawn [n] in [1000, 20000] that result is a string of decimal
    digits. *)
Theorem predict_sync (input : string) (mode : option string) (new_id : string)
    (n : Z) (w : World) :
  1 <= py_len input <= 10000 ->
  forallb py_isspace (code_points input) = false ->
  (mode = None \/ exists a, mode = Some a /\ lower a <> "true") ->
  Routes.post_predict input mode new_id n w =
    (Ok (Routes.SyncPredictionResponse input (str_of_Z n), []), w) /\
  Routes.post_status_code (Routes.SyncPredictionResponse input (str_of_Z n)) = 200 /\
  (1000 <= n <= 20000 -> isdigit (str_of_Z n) = true).
Proof.
  intros Hl Hs Hm. split; [|split; [reflexivity|intros Hn; apply str_of_Z_isdigit; lia]].
  rewrite post_predict_valid by exact Hl. unfold Routes.predict.
  rewrite (strip_nonempty input Hs).
  assert (Ha : match mode with Some a => String.eqb (lower a) "true" | None => false end
               = false).
  { destruct Hm as [->|(a & -> & Ha)]; [reflexivity|]. apply String.eqb_neq, Ha. }
  rewrite Ha. reflexivity.
Qed.

Lemma predict_sync_witness :
  (1 <= py_len "hello" <= 10000 /\
   forallb py_isspace (code_points "hello") = false /\
   (Some "no" = None \/ exists a, Some "no" = Some a /\ lower a <> "true")) /\
  Routes.post_predict "hello" (Some "no") "task-0001" 1234 (world0 []) =
    (Ok (Routes.SyncPredictionResponse "hello" "1234", []), world0 []).
Proof.
  assert (H1 : 1 <= py_len "hello" <= 10000) by (split; vm_compute; discriminate).
  assert (H2 : forallb py_isspace (code_points "hello") = false) by (vm_compute; reflexivity).
  assert (H3 : Some "no" = None \/ exists a, Some "no" = Some a /\ lower a <> "true").
  { right. exists "no". split; [reflexivity|vm_compute; discriminate]. }
  split; [split; [exact H1|split; assumption]|].
  exact (proj1 (predict_sync "hello" (Some "no") "task-0001" 1234 (world0 []) H1 H2 H3)).
Defined.

Lemma no_expiry_insert_ne (m : gmap string (RedisValue * Z)) (key k : string) x :
  k <> key -> no_expiry (<[key := x]> m) k = no_expiry m k.
Proof. intros Hne. unfold no_expiry. rewrite lookup_insert_ne by congruence. reflexivity. Qed.

(** The cleanup loop without transport faults: it counts the listed keys
    that have no expiry, gives exactly those the result TTL and leaves
    every other key as it was. *)
Lemma cleanup_loop_up (L : list string) :
  NoDup L -> forall (n : nat) (w : World), faults w = [] ->
  fst (cleanup_loop L n w) = Ok (n + length (List.filter (no_expiry (kv (redis w))) L))%nat /\
  faults (snd (cleanup_loop L n w)) = [] /\
  forall k, kv (redis (snd (cleanup_loop L n w))) !! k =
    if bool_decide (k ∈ L) && no_expiry (kv (redis w)) k
    then with_result_ttl (kv (redis w) !! k) else kv (redis w) !! k.
Proof.
  induction L as [|key rest IH]; intros Hnd n w Hf.
  - cbn. split; [f_equal; lia|]. split; [exact Hf|]. intros k.
    rewrite bool_decide_false by (apply not_elem_of_nil). reflexivity.
  - apply NoDup_cons in Hnd as [Hnin Hnd].
    world_cases w. cbn in Hf. subst fs.
    unfold bind at 1, ttl, command. cbn -[cleanup_loop].
    destruct (m !! key) as [[v t]|] eqn:Ek.
    + destruct (Z.eqb_spec t (-1)) as [Ht|Ht].
      * subst t. unfold bind, expire, command. cbn -[cleanup_loop]. rewrite Ek.
        cbn -[cleanup_loop].
        match goal with |- context [cleanup_loop rest ?c ?w'] =>
          destruct (IH Hnd c w' eq_refl) as (A & B & C) end.
        rewrite A. split; [|split; [exact B|]].
        { cbn. replace (no_expiry m key) with true
            by (unfold no_expiry; rewrite Ek; reflexivity). cbn. f_equal.
          rewrite (List.filter_ext_in _ (no_expiry m)); [lia|].
          intros k Hk. apply no_expiry_insert_ne. intros ->.
          apply Hnin. apply list_elem_of_In. exact Hk. }
        intros k. rewrite C. cbn.
        destruct (decide (k = key)) as [->|Hne].
        { rewrite bool_decide_false by exact Hnin.
          rewrite bool_decide_true by (apply elem_of_cons; left; reflexivity).
          rewrite lookup_insert_eq. unfold no_expiry. rewrite Ek. reflexivity. }
        rewrite no_expiry_insert_ne, lookup_insert_ne by congruence.
        rewrite (bool_decide_ext (k ∈ key :: rest) (k ∈ rest)); [reflexivity|].
        rewrite elem_of_cons. tauto.
      * destruct (Z.eqb_spec t (-1)) as [|_]; [congruence|].
        match goal with |- context [cleanup_loop rest ?c ?w'] =>
          destruct (IH Hnd c w' eq_refl) as (A & B & C) end.
        rewrite A. split; [|split; [exact B|]].
        { cbn. replace (no_expiry m key) with false; [reflexivity|].
          unfold no_expiry. rewrite Ek. symmetry. apply Z.eqb_neq, Ht. }
        intros k. rewrite C. cbn.
        destruct (decide (k = key)) as [->|Hne].
        { rewrite bool_decide_false by exact Hnin. unfold no_expiry. rewrite Ek.
          destruct (Z.eqb_spec t (-1)); [congruence|]. destruct (bool_decide (key ∈ key :: rest)); reflexivity. }
        rewrite (bool_decide_ext (k ∈ key :: rest) (k ∈ rest)); [reflexivity|].
        rewrite elem_of_cons. tauto.
    + cbn -[cleanup_loop].
      match goal with |- context [cleanup_loop rest ?c ?w'] =>
        destruct (IH Hnd c w' eq_refl) as (A & B & C) end.
      rewrite A. split; [|split; [exact B|]].
      { cbn. replace (no_expiry m key) with false; [reflexivity|].
        unfold no_expiry. rewrite Ek. reflexivity. }
      intros k. rewrite C. cbn.
      destruct (decide (k = key)) as [->|Hne].
      { rewrite bool_decide_false by exact Hnin. unfold no_expiry. rewrite Ek.
        destruct (bool_decide (key ∈ key :: rest)); reflexivity. }
      rewrite (bool_decide_ext (k ∈ key :: rest) (k ∈ rest)); [reflexivity|].
      rewrite elem_of_cons. tauto.
Qed.

Lemma status_keys_no_expiry (m : gmap string (RedisValue * Z)) (k : string) :
  bool_decide (k ∈ status_keys m) && no_expiry m k =
  String.prefix status_prefix k && no_expiry m k.
Proof.
  destruct (no_expiry m k) eqn:Hn; [|rewrite !andb_false_r; reflexivity].
  rewrite !andb_true_r. unfold no_expiry in Hn.
  destruct (m !! k) as [[v t]|] eqn:Ek; [|discriminate].
  assert (Hin : In k (map fst (map_to_list m))).
  { apply (in_map fst _ (k, (v, t))). apply list_elem_of_In.
    apply elem_of_map_to_list. exact Ek. }
  destruct (String.prefix status_prefix k) eqn:Hp.
  - apply bool_decide_true. apply list_elem_of_In. unfold status_keys.
    apply filter_In. split; [exact Hin|exact Hp].
  - apply bool_decide_false. intros Hk. apply list_elem_of_In in Hk.
    unfold status_keys in Hk. apply filter_In in Hk. destruct Hk as [_ Hk]. cbv beta in Hk. congruence.
Qed.

(** X15: [cleanup_expired_data] without transport faults returns the
    number of [prediction_status:*] keys that have no expiry, gives each
    of them the 24-hour TTL and leaves every other key (result keys,
    status keys that already expire) as it was. *)
Theorem cleanup_expired_data_up (w : World) :
  faults w = [] ->
  fst (cleanup_expired_data w) =
    Ok (length (List.filter (no_expiry (kv (redis w))) (status_keys (kv (redis w))))) /\
  forall k, kv (redis (snd (cleanup_expired_data w))) !! k =
    if String.prefix status_prefix k && no_expiry (kv (redis w)) k
    then with_result_ttl (kv (redis w) !! k) else kv (redis w) !! k.
Proof.
  intros Hf. world_cases w. cbn in Hf. subst fs.
  unfold cleanup_expired_data, try_except, bind at 1, keys_prefix, command.
  cbn -[cleanup_loop].
  assert (Hnd : NoDup (status_keys m)).
  { unfold status_keys. apply NoDup_ListNoDup, List.NoDup_filter, NoDup_ListNoDup.
    exact (NoDup_fst_map_to_list m). }
  match goal with |- context [cleanup_loop ?L 0%nat ?w'] =>
    change L with (status_keys m);
    destruct (cleanup_loop_up (status_keys m) Hnd 0%nat w' eq_refl) as (A & _ & C);
    destruct (cleanup_loop (status_keys m) 0%nat w') as [r w''] eqn:E
  end.
  cbn in A, C. subst r. cbn. split; [reflexivity|].
  intros k. rewrite C. rewrite status_keys_no_expiry. reflexivity.
Qed.

Lemma cleanup_expired_data_up_witness :
  faults aged_store = [] /\ fst (cleanup_expired_data aged_store) = Ok 1%nat.
Proof.
  split; [reflexivity|].
  rewrite (proj1 (cleanup_expired_data_up aged_store eq_refl)). vm_compute. reflexivity.
Defined.

(** ** Values under result keys *)

Section ResultValues.

Lemma command_json {A} (c : Command) (eff : Redis -> A * Redis) :
  (forall r, results_json (kv r) -> results_json (kv (snd (eff r)))) ->
  keeps_json (command c eff).
Proof.
  intros H w Hw. unfold command.
  destruct (faults w) as [|[|] fs]; cbn;
    try (destruct (eff (redis w)) as [a r'] eqn:E; cbn;
         specialize (H _ Hw); rewrite E in H; exact H).
  exact Hw.
Qed.

Lemma ret_json {A} (a : A) : keeps_json (ret a).
Proof. intros w Hw. exact Hw. Qed.

Lemma raise_json {A} (e : exn) : keeps_json (@raise A e).
Proof. intros w Hw. exact Hw. Qed.

Lemma lift_json {A} (r : res A) : keeps_json (lift r).
Proof. intros w Hw. exact Hw. Qed.

Lemma now_json : keeps_json now.
Proof. intros w Hw. exact Hw. Qed.

Lemma bind_json {A B} (m : M A) (k : A -> M B) :
  keeps_json m -> (forall a, keeps_json (k a)) -> keeps_json (bind m k).
Proof.
  intros Hm Hk w Hw. unfold bind. specialize (Hm w Hw).
  destruct (m w) as [[a|e] w']; cbn in *; [apply Hk|]; exact Hm.
Qed.

Lemma try_except_json {A} (m : M A) (h : exn -> M A) :
  keeps_json m -> (forall e, keeps_json (h e)) -> keeps_json (try_except m h).
Proof.
  intros Hm Hh w Hw. unfold try_except. specialize (Hm w Hw).
  destruct (m w) as [[a|e] w']; cbn in *; [|apply Hh]; exact Hm.
Qed.

(** A [SETEX] keeps the property when it writes JSON or writes no result
    key. *)
Lemma setex_json k t v :
  (forall q, k = result_key q -> exists d, v = RJson d) -> keeps_json (setex k t v).
Proof.
  intros Hk. apply command_json. intros r Hr q v' t' H. cbn in H.
  destruct (decide (k = result_key q)) as [->|Hne].
  - rewrite lookup_insert_eq in H. injection H as <- _. apply (Hk q eq_refl).
  - rewrite lookup_insert_ne in H by congruence. exact (Hr q v' t' H).
Qed.

Lemma get_json k : keeps_json (get k).
Proof. apply command_json. intros r Hr. exact Hr. Qed.

Lemma xadd_json fs : keeps_json (xadd fs).
Proof. apply command_json. intros r Hr. exact Hr. Qed.

Lemma xreadgroup_json : keeps_json xreadgroup_one.
Proof.
  apply command_json. intros r Hr. cbn.
  destruct (List.filter _ _); exact Hr.
Qed.

Lemma xack_json m : keeps_json (xack m).
Proof. apply command_json. intros r Hr. exact Hr. Qed.

Lemma keys_json p : keeps_json (keys_prefix p).
Proof. apply command_json. intros r Hr. exact Hr. Qed.

Lemma ttl_json k : keeps_json (ttl k).
Proof. apply command_json. intros r Hr. exact Hr. Qed.

(** [EXPIRE] changes the expiry of a key, never its value. *)
Lemma expire_json k t : keeps_json (expire k t).
Proof.
  apply command_json. intros r Hr. cbn.
  destruct (kv r !! k) as [[v t0]|] eqn:Ek; cbn; [|exact Hr].
  intros q v' t' H. destruct (decide (k = result_key q)) as [->|Hne].
  - rewrite lookup_insert_eq in H. injection H as <- _. exact (Hr q v t0 Ek).
  - rewrite lookup_insert_ne in H by congruence. exact (Hr q v' t' H).
Qed.

End ResultValues.

Ltac json_tac :=
  repeat first
    [ apply bind_json; intros
    | apply try_except_json; intros
    | apply ret_json | apply raise_json | apply lift_json | apply now_json
    | apply get_json | apply xadd_json | apply xreadgroup_json
    | apply xack_json | apply keys_json | apply ttl_json | apply expire_json
    | apply setex_json; intros ?q ?Eq;
      first [ eexists; reflexivity
            | exfalso; exact (result_key_not_status_key _ _ (eq_sym Eq)) ]
    | match goal with |- keeps_json (match ?x with _ => _ end) => destruct x end ].

Lemma cleanup_loop_json keys n : keeps_json (cleanup_loop keys n).
Proof.
  revert n. induction keys as [|k keys IH]; intros n; cbn; json_tac; apply IH.
Qed.

(** X17: only the text of [json.dumps] of a dict is ever stored under a
    [prediction_result:] key: a fresh server has none, and every queue
    operation, the background worker and both endpoints keep every value
    under a result key the JSON dump of a dict, whatever the transport
    does (status writes go to the distinct [prediction_status:] keys, and
    the cleanup sweep only changes expiries).  So [json.loads] in
    [get_prediction_result] is only ever applied to such text. *)
Theorem result_keys_hold_json :
  results_json (kv empty_redis) /\
  (forall pid input, keeps_json (enqueue_prediction pid input)) /\
  keeps_json get_next_task /\
  (forall m, keeps_json (acknowledge_task m)) /\
  (forall pid st, keeps_json (set_prediction_status pid st)) /\
  (forall pid, keeps_json (get_prediction_status pid)) /\
  (forall pid r, keeps_json (store_prediction_result pid r)) /\
  (forall pid, keeps_json (get_prediction_result pid)) /\
  keeps_json cleanup_expired_data /\
  (forall predict pid input, keeps_json (Routes.process_async_prediction predict pid input)) /\
  (forall pid, keeps_json (Routes.get_prediction_result pid)) /\
  (forall input mode new_id n, keeps_json (Routes.post_predict input mode new_id n)).
Proof.
  split; [intros q v t H; discriminate|].
  split; [intros; unfold enqueue_prediction, set_prediction_status; json_tac|].
  split; [unfold get_next_task; json_tac|].
  split; [intros; unfold acknowledge_task; json_tac|].
  split; [intros; unfold set_prediction_status; json_tac|].
  split; [intros; unfold get_prediction_status; json_tac|].
  split; [intros; unfold store_prediction_result, set_prediction_status; json_tac|].
  split; [intros; unfold get_prediction_result; json_tac|].
  split; [unfold cleanup_expired_data; json_tac; apply cleanup_loop_json|].
  split; [intros; unfold Routes.process_async_prediction, store_prediction_result,
            set_prediction_status; json_tac|].
  split; [intros; unfold Routes.get_prediction_result, get_prediction_status,
            get_prediction_result; json_tac|].
  intros. unfold Routes.post_predict, Routes.predict, enqueue_prediction,
    set_prediction_status. json_tac.
Qed.
